(** * The plugin host process of plugin-ext (hosted/node/plugin-host.ts)

    A shallow embedding of the host bootstrap: the inbound message handler,
    [initialize], and the two operations [loadPlugin] and [init] handed to
    the plugin manager.  Every statement of the source that touches the
    outside world (console, module loader, initializer hooks, the emitter) or
    grows one of the two result arrays is recorded, in program order, in a
    trace; exceptions are explicit. *)

From Stdlib Require Import String List Bool Arith Lia.
From ExtLib Require Import Structures.Monad Structures.MonadExc.
Import ListNotations.
Import MonadNotation.
Local Open Scope monad_scope.
Local Open Scope string_scope.
Local Open Scope list_scope.

Set Warnings "-register-all".

(** ** JavaScript values *)

(** A value of type [string | undefined]: [None] is [undefined]. *)
Definition jsstring := option string.

(** The test [if (v)] on a [string | undefined]: [undefined] and the empty
    string are falsy, every other string is truthy. *)
Definition truthy (v : jsstring) : bool :=
  match v with
  | Some s => negb (s =? "")
  | None => false
  end.

(** ['...' + v] on a [string | undefined]. *)
Definition js_str (v : jsstring) : string :=
  match v with
  | Some s => s
  | None => "undefined"
  end.

(** What a [throw] carries. *)
Inductive Exn : Type :=
| TypeError (msg : string)
| SyntaxError (msg : string)
| Error (msg : string).

(** What [JSON.parse] yields. *)
Inductive JSON : Type :=
| JNull
| JBool (b : bool)
| JNumber (n : nat)
| JString (s : string)
| JArray (items : list JSON)
| JObject (members : list (string * JSON)).

(** ** The plugin protocol *)

(** Modelled from the spec: the declarations of PluginPackage, PluginModel,
    PluginLifecycle and PluginMetadata (common/plugin-protocol) are imported
    by plugin-host.ts but are not among the sources.  Only the fields the
    host reads are kept; the raw package is never inspected by the host. *)
Record PluginPackage : Type := { packageName : string }.

Record EntryPoint : Type := {
  frontend : jsstring;
  backend : jsstring
}.

Record PluginModel : Type := {
  name : string;
  entryPoint : EntryPoint
}.

Record PluginLifecycle : Type := {
  frontendInitPath : jsstring;
  backendInitPath : jsstring
}.

Module PluginMetadata.
Record t : Type := {
  source : PluginPackage;
  model : PluginModel;
  lifecycle : PluginLifecycle
}.
End PluginMetadata.

(** Modelled from the spec: the declaration of Plugin (api/plugin-api) is
    imported but not among the sources; the fields are those of the two
    object literals in [init].  The two paths are what JavaScript stores
    there, so they may be [undefined] whatever the declared type says. *)
Module Plugin.
Record t : Type := {
  pluginPath : jsstring;
  initPath : jsstring;
  model : PluginModel;
  lifecycle : PluginLifecycle;
  rowModel : PluginPackage
}.
End Plugin.

(** The two module-level objects handed to the hooks. *)
Inductive Handle : Type := rpc | pluginManager.

(** ** Modules reached through [require] *)

(** A hook is opaque to the host: called on its arguments it either returns
    ([None]) or throws.  A hook is taken not to write to the descriptor or
    plugin object it is handed; a statement that depends on what the host
    reads from that object after the hook has run holds under this reading
    only. *)
Record ModuleObject : Type := {
  doInitialization : option (PluginMetadata.t -> option Exn);
  doLoad : option (Plugin.t -> option Exn)
}.

(** [module.exports]: an object, or [null]/[undefined], on which a property
    access throws. *)
Inductive Exports : Type :=
| Nullish
| Object (m : ModuleObject).

(** ** Traces *)

(** The two arrays local to [init]. *)
Inductive Bucket : Type := Result | Foreign.

Inductive Event : Type :=
| ConsoleLog (line : string)
| ConsoleError (e : Exn)
| LoadModule (path : jsstring)
| CallDoInitialization (path : string) (a1 a2 : Handle) (plg : PluginMetadata.t)
| CallDoLoad (path : string) (a1 : Handle) (plugin : Plugin.t)
| EmitterFire (v : JSON)
| Push (b : Bucket) (plugin : Plugin.t).

Definition Trace := list Event.

(** ** Computations: a trace and either an exception or a value *)

Definition Eff (A : Type) : Type := (Trace * (Exn + A))%type.

Definition eff_ret {A} (a : A) : Eff A := ([], inr a).

Definition eff_bind {A B} (c : Eff A) (k : A -> Eff B) : Eff B :=
  match c with
  | (t, inl e) => (t, inl e)
  | (t, inr a) => let (t', r) := k a in (t ++ t', r)
  end.

Definition eff_throw {A} (e : Exn) : Eff A := ([], inl e).

(** [try { c } catch (e) { h e }] *)
Definition eff_catch {A} (c : Eff A) (h : Exn -> Eff A) : Eff A :=
  match c with
  | (t, inl e) => let (t', r) := h e in (t ++ t', r)
  | (t, inr a) => (t, inr a)
  end.

#[export] Instance Monad_Eff : Monad Eff :=
  {| ret := @eff_ret; bind := @eff_bind |}.

#[export] Instance MonadExc_Eff : MonadExc Exn Eff :=
  {| raise := @eff_throw; catch := @eff_catch |}.

Definition tell (ev : Event) : Eff unit := ([ev], inr tt).

Definition lift {A} (r : Exn + A) : Eff A := ([], r).

Definition events {A} (c : Eff A) : Trace := fst c.
Definition outcome {A} (c : Eff A) : Exn + A := snd c.

Definition console_log (line : string) : Eff unit := tell (ConsoleLog line).
Definition console_error (e : Exn) : Eff unit := tell (ConsoleError e).

(** What Node raises for [require(undefined)] and [require('')]. *)
Definition missing_path : Exn := Error "missing path".

(** Property access on [null]/[undefined]. *)
Definition not_an_object : Exn := TypeError "Cannot read property of undefined".

(** Calling a property that is [undefined]. *)
Definition not_a_function : Exn := TypeError "backendInit.doInitialization is not a function".

(** The line [initialize] prints: ['PLUGIN_HOST(' + process.pid + '): initializing(' + contextPath + ')']. *)
Definition initializing_line (pid contextPath : string) : string :=
  "PLUGIN_HOST(" ++ pid ++ "): initializing(" ++ contextPath ++ ")".

(** The line [loadPlugin] prints: ['PLUGIN_HOST(' + process.pid + '): loadPlugin(' + plugin.pluginPath + ')']. *)
Definition loadPlugin_line (pid : string) (plugin : Plugin.t) : string :=
  "PLUGIN_HOST(" ++ pid ++ "): loadPlugin(" ++ js_str (Plugin.pluginPath plugin) ++ ")".

Section Host.

(** [process.pid], as it is printed. *)
Variable pid : string.

(** Node's module loader on a non-empty path: the exports, or a throw. *)
Variable resolve : string -> Exn + Exports.

(** [JSON.parse]: the decoded value, or a throw. *)
Variable JSON_parse : string -> Exn + JSON.

(** Delivery of a decoded frame to the subscribers of [emitter.event]
    (Emitter, from core's common/event, is outside the sources): whatever
    the subscribers do, and whether an exception leaves [fire]. *)
Variable deliver : JSON -> Eff unit.

(** [require(path)] *)
Definition require (path : jsstring) : Eff Exports :=
  tell (LoadModule path) ;;
  match path with
  | None => raise missing_path
  | Some p => if p =? "" then raise missing_path else lift (resolve p)
  end.

(** [emitter.fire(v)] *)
Definition emitter_fire (v : JSON) : Eff unit :=
  tell (EmitterFire v) ;; deliver v.

(** [process.on('message', ...)]: the handler. *)
Definition on_message (message : string) : Eff unit :=
  catch (v <- lift (JSON_parse message) ;; emitter_fire v)
        (fun e => console_error e).

(** [backendInit.doInitialization(rpc, pluginManager, pluginMetadata)] *)
Definition call_doInitialization (contextPath : string) (backendInit : Exports)
    (pluginMetadata : PluginMetadata.t) : Eff unit :=
  match backendInit with
  | Nullish => raise not_an_object
  | Object m =>
      match doInitialization m with
      | None => raise not_a_function
      | Some hook =>
          tell (CallDoInitialization contextPath rpc pluginManager pluginMetadata) ;;
          match hook pluginMetadata with
          | None => ret tt
          | Some e => raise e
          end
      end
  end.

Definition initialize (contextPath : string) (pluginMetadata : PluginMetadata.t)
    : Eff unit :=
  console_log (initializing_line pid contextPath) ;;
  backendInit <- require (Some contextPath) ;;
  call_doInitialization contextPath backendInit pluginMetadata.

(** [if (backendInit.doLoad) { backendInit.doLoad(rpc, plugin); }] *)
Definition call_doLoad (contextPath : string) (backendInit : Exports)
    (plugin : Plugin.t) : Eff unit :=
  match backendInit with
  | Nullish => raise not_an_object
  | Object m =>
      match doLoad m with
      | None => ret tt
      | Some hook =>
          tell (CallDoLoad contextPath rpc plugin) ;;
          match hook plugin with
          | None => ret tt
          | Some e => raise e
          end
      end
  end.

(** [loadPlugin]: the value handed back is what [return] carries.  [None]
    is the [undefined] of falling off the end after the [catch];
    [Some exports] is the value of [require(plugin.pluginPath)], among which
    [Some Nullish] stands for exports that are themselves [null] or
    [undefined]. *)
Definition loadPlugin (contextPath : string) (plugin : Plugin.t)
    : Eff (option Exports) :=
  console_log (loadPlugin_line pid plugin) ;;
  backendInit <- require (Some contextPath) ;;
  call_doLoad contextPath backendInit plugin ;;
  catch (exports <- require (Plugin.pluginPath plugin) ;; ret (Some exports))
        (fun e => console_error e ;; ret None).

(** [result.push(plugin)] / [foreign.push({...})] *)
Definition push (b : Bucket) (arr : list Plugin.t) (plugin : Plugin.t)
    : Eff (list Plugin.t) :=
  tell (Push b plugin) ;; ret (arr ++ [plugin]).

(** The object literal of the backend branch. *)
Definition backend_plugin (initPath : jsstring) (plg : PluginMetadata.t) : Plugin.t :=
  {| Plugin.pluginPath := backend (entryPoint (PluginMetadata.model plg));
     Plugin.initPath := initPath;
     Plugin.model := PluginMetadata.model plg;
     Plugin.lifecycle := PluginMetadata.lifecycle plg;
     Plugin.rowModel := PluginMetadata.source plg |}.

(** The object literal of the else branch. *)
Definition frontend_plugin (plg : PluginMetadata.t) : Plugin.t :=
  {| Plugin.pluginPath := frontend (entryPoint (PluginMetadata.model plg));
     Plugin.initPath := frontendInitPath (PluginMetadata.lifecycle plg);
     Plugin.model := PluginMetadata.model plg;
     Plugin.lifecycle := PluginMetadata.lifecycle plg;
     Plugin.rowModel := PluginMetadata.source plg |}.

(** The body of [for (const plg of raw)], on the two arrays so far. *)
Definition init_body (plg : PluginMetadata.t)
    (acc : list Plugin.t * list Plugin.t) : Eff (list Plugin.t * list Plugin.t) :=
  let (result, foreign) := acc in
  let pluginModel := PluginMetadata.model plg in
  let pluginLifecycle := PluginMetadata.lifecycle plg in
  if truthy (backend (entryPoint pluginModel)) then
    backendInitPath <-
      match backendInitPath pluginLifecycle with
      | Some p =>
          if negb (p =? "") then initialize p plg ;; ret (Some p)
          else ret (Some "")
      | None => ret (Some "")
      end ;;
    result' <- push Result result (backend_plugin backendInitPath plg) ;;
    ret (result', foreign)
  else
    foreign' <- push Foreign foreign (frontend_plugin plg) ;;
    ret (result, foreign').

Fixpoint init_loop (raw : list PluginMetadata.t)
    (acc : list Plugin.t * list Plugin.t) : Eff (list Plugin.t * list Plugin.t) :=
  match raw with
  | [] => ret acc
  | plg :: rest => acc' <- init_body plg acc ;; init_loop rest acc'
  end.

(** [init]: both arrays start empty and are returned as a pair. *)
Definition init (raw : list PluginMetadata.t) : Eff (list Plugin.t * list Plugin.t) :=
  init_loop raw ([], []).

End Host.

Arguments initializing_line : simpl never.
Arguments loadPlugin_line : simpl never.
Arguments require : simpl never.
Arguments initialize : simpl never.
Arguments init_body : simpl never.

(** ** Vocabulary of the statements *)

(** The test of the outer [if] in [init]. *)
Definition has_backend (plg : PluginMetadata.t) : bool :=
  truthy (backend (entryPoint (PluginMetadata.model plg))).

Definition has_frontend (plg : PluginMetadata.t) : bool :=
  truthy (frontend (entryPoint (PluginMetadata.model plg))).

(** The test of the inner [if] in [init]. *)
Definition names_initializer (plg : PluginMetadata.t) : bool :=
  truthy (backendInitPath (PluginMetadata.lifecycle plg)).

(** The value of the local [backendInitPath] when the literal is built. *)
Definition recorded_initPath (plg : PluginMetadata.t) : jsstring :=
  if names_initializer plg then backendInitPath (PluginMetadata.lifecycle plg)
  else Some "".

Definition backend_bucket (raw : list PluginMetadata.t) : list Plugin.t :=
  map (fun plg => backend_plugin (recorded_initPath plg) plg) (filter has_backend raw).

Definition frontend_bucket (raw : list PluginMetadata.t) : list Plugin.t :=
  map frontend_plugin (filter (fun plg => negb (has_backend plg)) raw).

(** An initializer module that loads and whose hook returns on [plg]. *)
Definition initializer_succeeds (resolve : string -> Exn + Exports)
    (p : string) (plg : PluginMetadata.t) : Prop :=
  exists m hook,
    resolve p = inr (Object m) /\ doInitialization m = Some hook /\ hook plg = None.

(** The statements of [loadPlugin] before its [try]: the module at
    [contextPath] loads, is an object, and its [doLoad], when there is one,
    returns on [plugin]. *)
Definition prelude_passes (resolve : string -> Exn + Exports)
    (contextPath : string) (plugin : Plugin.t) : Prop :=
  contextPath <> "" /\
  exists m,
    resolve contextPath = inr (Object m) /\
    (doLoad m = None \/ exists hook, doLoad m = Some hook /\ hook plugin = None).

Definition is_console_error (ev : Event) : bool :=
  match ev with ConsoleError _ => true | _ => false end.

(** ** The listener over a run of messages *)

Section Inbound.

Variable JSON_parse : string -> Exn + JSON.
Variable deliver : JSON -> Eff unit.

(** Node calls the listener registered with [process.on('message', ...)]
    once per message, in arrival order, each call running to its end before
    the next one starts. *)
Fixpoint on_messages (messages : list string) : Eff unit :=
  match messages with
  | [] => ret tt
  | message :: rest => on_message JSON_parse deliver message ;; on_messages rest
  end.

End Inbound.

(** ** An emitter with its subscribers *)



(** ** Vocabulary of the further statements *)

(** Both tests of [init] hold: the step goes through [initialize]. *)
Definition needs_initializer (plg : PluginMetadata.t) : bool :=
  has_backend plg && names_initializer plg.

(** The path [initialize] is called with. *)
Definition initializer_path (plg : PluginMetadata.t) : string :=
  match backendInitPath (PluginMetadata.lifecycle plg) with
  | Some p => p
  | None => ""
  end.

(** Nothing stands in the way of the step of [init] for [plg]. *)
Definition step_ok (resolve : string -> Exn + Exports) (plg : PluginMetadata.t) : Prop :=
  needs_initializer plg = true ->
  initializer_succeeds resolve (initializer_path plg) plg.

(** What a step of [init] that completes leaves in the trace. *)
Definition step_trace (pid : string) (plg : PluginMetadata.t) : Trace :=
  if has_backend plg then
    (if names_initializer plg then
       [ConsoleLog (initializing_line pid (initializer_path plg));
        LoadModule (Some (initializer_path plg));
        CallDoInitialization (initializer_path plg) rpc pluginManager plg]
     else [])
    ++ [Push Result (backend_plugin (recorded_initPath plg) plg)]
  else [Push Foreign (frontend_plugin plg)].

(** The calls of [doInitialization] in a trace: path and descriptor. *)
Definition initialized (t : Trace) : list (string * PluginMetadata.t) :=
  flat_map (fun ev => match ev with
                      | CallDoInitialization p _ _ plg => [(p, plg)]
                      | _ => []
                      end) t.

(** The paths handed to [require] in a trace. *)
Definition requested (t : Trace) : list jsstring :=
  flat_map (fun ev => match ev with LoadModule p => [p] | _ => [] end) t.

(** The frames handed to [emitter.fire] in a trace. *)
Definition fired (t : Trace) : list JSON :=
  flat_map (fun ev => match ev with EmitterFire v => [v] | _ => [] end) t.

(** The kinds of action [init] can take. *)
Definition init_event (ev : Event) : bool :=
  match ev with
  | ConsoleLog _ | LoadModule _ | CallDoInitialization _ _ _ _ | Push _ _ => true
  | ConsoleError _ | CallDoLoad _ _ _ | EmitterFire _ => false
  end.

(** ** A concrete host, for running the definitions *)

Definition descriptor (nm : string) (fe be feInit beInit : jsstring) : PluginMetadata.t :=
  {| PluginMetadata.source := {| packageName := nm |};
     PluginMetadata.model :=
       {| name := nm; entryPoint := {| frontend := fe; backend := be |} |};
     PluginMetadata.lifecycle :=
       {| frontendInitPath := feInit; backendInitPath := beInit |} |}.

Definition plg_a : PluginMetadata.t := descriptor "a" None (Some "a.js") None None.
Definition plg_b : PluginMetadata.t := descriptor "b" (Some "b.js") None None None.
Definition plg_c : PluginMetadata.t :=
  descriptor "c" None (Some "c.js") None (Some "c-init.js").
Definition plg_neither : PluginMetadata.t := descriptor "n" None None None None.

Definition pl_a : Plugin.t := backend_plugin (Some "") plg_a.

(** A backend plugin whose entry module is not on disk. *)
Definition pl_missing : Plugin.t :=
  backend_plugin (Some "") (descriptor "m" None (Some "missing.js") None None).

Definition plain_module : ModuleObject :=
  {| doInitialization := None; doLoad := None |}.

Definition initializer_module : ModuleObject :=
  {| doInitialization := Some (fun _ => None); doLoad := Some (fun _ => None) |}.

Definition failing_loader_module : ModuleObject :=
  {| doInitialization := Some (fun _ => None);
     doLoad := Some (fun _ => Some (Error "doLoad failed")) |}.

Definition cannot_find_module : Exn := Error "Cannot find module".

(** A descriptor whose initializer module is not on disk. *)
Definition plg_broken : PluginMetadata.t :=
  descriptor "x" None (Some "x.js") None (Some "missing-init.js").

(** A descriptor that declares both entry points and an initializer. *)
Definition plg_both : PluginMetadata.t :=
  descriptor "d" (Some "d-ui.js") (Some "c.js") None (Some "c-init.js").

(** What [init] hands back for [plg_neither]. *)
Definition pl_neither : Plugin.t := frontend_plugin plg_neither.

(** A subscriber side that takes every frame. *)
Definition quiet_deliver (v : JSON) : Eff unit := eff_ret tt.

Definition sample_pid : string := "4242".

Definition sample_resolve (p : string) : Exn + Exports :=
  if p =? "c-init.js" then inr (Object initializer_module)
  else if p =? "bad-load.js" then inr (Object failing_loader_module)
  else if (p =? "a.js") || (p =? "c.js") then inr (Object plain_module)
  else inl cannot_find_module.

Definition sample_parse (message : string) : Exn + JSON :=
  if message =? "{}" then inr (JObject []) else inl (SyntaxError "Unexpected token").

Definition subscriber_failure : Exn := Error "subscriber failed".

Definition sample_deliver (v : JSON) : Eff unit := eff_throw subscriber_failure.

(** ** Laws of the computations *)

Lemma eff_bind_assoc {A B C} (c : Eff A) (k : A -> Eff B) (k' : B -> Eff C) :
  eff_bind (eff_bind c k) k' = eff_bind c (fun a => eff_bind (k a) k').
Proof.
  destruct c as [t [e | a]]; cbn; [reflexivity |].
  destruct (k a) as [t1 [e1 | b]]; cbn; [reflexivity |].
  destruct (k' b) as [t2 r2]. now rewrite app_assoc.
Qed.

Lemma eff_bind_ret_r {A} (c : Eff A) : eff_bind c (@eff_ret A) = c.
Proof.
  destruct c as [t [e | a]]; cbn; [reflexivity |]. now rewrite app_nil_r.
Qed.

Lemma eff_bind_ok {A B} (c : Eff A) (k : A -> Eff B) t b :
  eff_bind c k = (t, inr b) ->
  exists t1 a t2, c = (t1, inr a) /\ k a = (t2, inr b) /\ t = t1 ++ t2.
Proof.
  destruct c as [t1 [e | a]]; cbn; [discriminate |].
  destruct (k a) as [t2 r] eqn:Hk. intros H; inversion H; subst.
  now exists t1, a, t2.
Qed.

Section InitFacts.

Variable pid : string.
Variable resolve : string -> Exn + Exports.

Lemma require_nonempty p :
  p <> "" -> require resolve (Some p) = ([LoadModule (Some p)], resolve p).
Proof.
  intros Hp. unfold require. cbn.
  destruct (String.eqb_spec p ""); [contradiction |].
  cbn. now destruct (resolve p).
Qed.

Lemma init_body_else plg r f :
  has_backend plg = false ->
  init_body pid resolve plg (r, f)
  = ([Push Foreign (frontend_plugin plg)], inr (r, f ++ [frontend_plugin plg])).
Proof.
  unfold has_backend, init_body. intros ->. reflexivity.
Qed.

Lemma init_body_no_initializer plg r f :
  has_backend plg = true ->
  names_initializer plg = false ->
  init_body pid resolve plg (r, f)
  = ([Push Result (backend_plugin (Some "") plg)],
     inr (r ++ [backend_plugin (Some "") plg], f)).
Proof.
  unfold has_backend, names_initializer, init_body. intros -> Hn.
  destruct (backendInitPath (PluginMetadata.lifecycle plg)) as [p |]; cbn in *.
  - destruct (p =? ""); [reflexivity | discriminate].
  - reflexivity.
Qed.

Lemma init_body_initializer plg p r f :
  has_backend plg = true ->
  backendInitPath (PluginMetadata.lifecycle plg) = Some p ->
  p <> "" ->
  init_body pid resolve plg (r, f)
  = eff_bind (initialize pid resolve p plg)
      (fun _ => ([Push Result (backend_plugin (Some p) plg)],
                 inr (r ++ [backend_plugin (Some p) plg], f))).
Proof.
  unfold has_backend, init_body. intros -> -> Hp.
  destruct (String.eqb_spec p ""); [contradiction |]. cbn.
  destruct (initialize pid resolve p plg) as [t [e | []]]; cbn; [reflexivity |].
  now rewrite app_nil_r.
Qed.

Lemma names_initializer_path plg :
  names_initializer plg = true ->
  exists p, backendInitPath (PluginMetadata.lifecycle plg) = Some p /\ p <> "".
Proof.
  unfold names_initializer, truthy.
  destruct (backendInitPath (PluginMetadata.lifecycle plg)) as [p |]; [| discriminate].
  destruct (String.eqb_spec p ""); [discriminate |]. now exists p.
Qed.

(** [initialize] always prints its line and asks for the module; it
    returns exactly when the module is an object whose hook returns. *)
Lemma initialize_cases p plg :
  p <> "" ->
  (initializer_succeeds resolve p plg /\
   initialize pid resolve p plg
   = ([ConsoleLog (initializing_line pid p); LoadModule (Some p);
       CallDoInitialization p rpc pluginManager plg], inr tt))
  \/ (exists t e,
        initialize pid resolve p plg
        = (ConsoleLog (initializing_line pid p) :: LoadModule (Some p) :: t, inl e) /\
        (t = [] \/ t = [CallDoInitialization p rpc pluginManager plg])).
Proof.
  intros Hp. unfold initialize. cbn. rewrite (require_nonempty p Hp). cbn.
  destruct (resolve p) as [e | [| m]] eqn:Hr; cbn.
  - right. exists [], e. auto.
  - right. exists [], not_an_object. auto.
  - destruct (doInitialization m) as [hook |] eqn:Hd; cbn.
    + destruct (hook plg) as [e |] eqn:Hh; cbn.
      * right. exists [CallDoInitialization p rpc pluginManager plg], e. auto.
      * left. split; [now exists m, hook | reflexivity].
    + right. exists [], not_a_function. auto.
Qed.

Lemma initialize_ok p plg :
  p <> "" ->
  initializer_succeeds resolve p plg ->
  initialize pid resolve p plg
  = ([ConsoleLog (initializing_line pid p); LoadModule (Some p);
      CallDoInitialization p rpc pluginManager plg], inr tt).
Proof.
  intros Hp (m & hook & Hr & Hd & Hh).
  unfold initialize. cbn. rewrite (require_nonempty p Hp), Hr. cbn.
  now rewrite Hd, Hh.
Qed.

Lemma init_loop_app pre post acc :
  init_loop pid resolve (pre ++ post) acc
  = eff_bind (init_loop pid resolve pre acc) (init_loop pid resolve post).
Proof.
  revert acc. induction pre as [| plg pre IH]; intros acc; cbn.
  - destruct (init_loop pid resolve post acc) as [t r]. reflexivity.
  - rewrite eff_bind_assoc.
    destruct (init_body pid resolve plg acc) as [t [e | acc']]; cbn; [reflexivity |].
    now rewrite IH.
Qed.

Lemma init_loop_single plg acc :
  init_loop pid resolve [plg] acc = init_body pid resolve plg acc.
Proof. cbn. apply eff_bind_ret_r. Qed.

(** The three ways through the loop body. *)
Lemma init_body_ok plg r f t acc :
  init_body pid resolve plg (r, f) = (t, inr acc) ->
  acc = (r ++ backend_bucket [plg], f ++ frontend_bucket [plg]).
Proof.
  intros H.
  assert (Hbk : backend_bucket [plg]
                = if has_backend plg
                  then [backend_plugin (recorded_initPath plg) plg] else [])
    by (unfold backend_bucket; cbn; now destruct (has_backend plg)).
  assert (Hfr : frontend_bucket [plg]
                = if has_backend plg then [] else [frontend_plugin plg])
    by (unfold frontend_bucket; cbn; now destruct (has_backend plg)).
  rewrite Hbk, Hfr. clear Hbk Hfr. unfold recorded_initPath.
  destruct (has_backend plg) eqn:Hb.
  - destruct (names_initializer plg) eqn:Hn.
    + destruct (names_initializer_path plg Hn) as (p & Hp & Hne).
      rewrite (init_body_initializer plg p r f Hb Hp Hne) in H. rewrite Hp.
      apply eff_bind_ok in H. destruct H as (t1 & [] & t2 & _ & H & _).
      inversion H. now rewrite app_nil_r.
    + rewrite (init_body_no_initializer plg r f Hb Hn) in H.
      inversion H. now rewrite app_nil_r.
  - rewrite (init_body_else plg r f Hb) in H.
    inversion H. now rewrite app_nil_r.
Qed.

Lemma backend_bucket_cons plg raw :
  backend_bucket (plg :: raw) = backend_bucket [plg] ++ backend_bucket raw.
Proof. unfold backend_bucket. cbn. now destruct (has_backend plg). Qed.

Lemma frontend_bucket_cons plg raw :
  frontend_bucket (plg :: raw) = frontend_bucket [plg] ++ frontend_bucket raw.
Proof. unfold frontend_bucket. cbn. now destruct (has_backend plg). Qed.

Lemma backend_bucket_app pre post :
  backend_bucket (pre ++ post) = backend_bucket pre ++ backend_bucket post.
Proof. unfold backend_bucket. now rewrite filter_app, map_app. Qed.

Lemma frontend_bucket_app pre post :
  frontend_bucket (pre ++ post) = frontend_bucket pre ++ frontend_bucket post.
Proof. unfold frontend_bucket. now rewrite filter_app, map_app. Qed.

Lemma buckets_length raw :
  length (backend_bucket raw) + length (frontend_bucket raw) = length raw.
Proof.
  induction raw as [| plg raw IH]; [reflexivity |].
  rewrite backend_bucket_cons, frontend_bucket_cons, !length_app.
  unfold backend_bucket at 1, frontend_bucket at 1. cbn.
  destruct (has_backend plg); cbn; lia.
Qed.

Lemma init_loop_ok raw : forall r f t bk fr,
  init_loop pid resolve raw (r, f) = (t, inr (bk, fr)) ->
  bk = r ++ backend_bucket raw /\ fr = f ++ frontend_bucket raw.
Proof.
  induction raw as [| plg raw IH]; intros r f t bk fr H.
  - inversion H. now rewrite !app_nil_r.
  - cbn in H. apply eff_bind_ok in H.
    destruct H as (t1 & [r' f'] & t2 & Hbody & Hrest & _).
    apply init_body_ok in Hbody. inversion Hbody; subst.
    apply IH in Hrest. destruct Hrest as [-> ->].
    rewrite (backend_bucket_cons plg raw), (frontend_bucket_cons plg raw).
    now rewrite !app_assoc.
Qed.

End InitFacts.

(** ** [init]: the partition *)

(** C1, as amended.  Whenever [init] returns, every descriptor has produced
    exactly one Plugin in exactly one of the two arrays, and the array is
    chosen by the truthiness of the model's backend entry point alone: the
    backend array holds the descriptors with a backend entry point, in
    order, the frontend array all the others, in order.  A descriptor
    without a backend entry point, whether or not it has a frontend one, is
    therefore pushed to the frontend array, and that step cannot throw. *)
Theorem init_partitions_on_backend_entry_point :
  forall (pid : string) (resolve : string -> Exn + Exports)
         (raw : list PluginMetadata.t),
    (forall t bk fr,
        init pid resolve raw = (t, inr (bk, fr)) ->
        bk = backend_bucket raw /\ fr = frontend_bucket raw /\
        length bk + length fr = length raw /\
        (forall plg, In plg raw -> has_backend plg = false ->
                     In (frontend_plugin plg) fr)) /\
    (forall plg r f,
        has_backend plg = false ->
        init_body pid resolve plg (r, f)
        = ([Push Foreign (frontend_plugin plg)], inr (r, f ++ [frontend_plugin plg]))).
Proof.
  intros pid resolve raw. split.
  - intros t bk fr H. unfold init in H.
    apply init_loop_ok in H. cbn in H. destruct H as [-> ->].
    repeat split.
    + apply buckets_length.
    + intros plg Hin Hb. unfold frontend_bucket.
      apply in_map, filter_In. split; [assumption | now rewrite Hb].
  - intros plg r f Hb. now apply init_body_else.
Qed.

Lemma init_partitions_on_backend_entry_point_witness :
  backend_bucket [plg_a; plg_neither] = [backend_plugin (Some "") plg_a] /\
  frontend_bucket [plg_a; plg_neither] = [frontend_plugin plg_neither] /\
  In (frontend_plugin plg_neither) [frontend_plugin plg_neither] /\
  init_body sample_pid sample_resolve plg_neither ([], [])
  = ([Push Foreign (frontend_plugin plg_neither)], inr ([], [frontend_plugin plg_neither])).
Proof.
  destruct (init_partitions_on_backend_entry_point sample_pid sample_resolve
              [plg_a; plg_neither]) as [Hret Hbody].
  destruct (Hret [Push Result (backend_plugin (Some "") plg_a);
                  Push Foreign (frontend_plugin plg_neither)]
                 [backend_plugin (Some "") plg_a]
                 [frontend_plugin plg_neither] eq_refl)
    as (Hbk & Hfr & _ & Hin).
  split; [| split; [| split]].
  - symmetry; exact Hbk.
  - symmetry; exact Hfr.
  - apply Hin; [right; left; reflexivity | reflexivity].
  - apply (Hbody plg_neither [] []). reflexivity.
Defined.

(** C1 as written fails: a descriptor that declares neither entry point is
    not left out, [init] hands it back in the frontend array, with an
    undefined pluginPath. *)
Lemma init_keeps_descriptor_without_entry_point :
  has_backend plg_neither = false /\
  has_frontend plg_neither = false /\
  exists pl,
    outcome (init sample_pid sample_resolve [plg_neither]) = inr ([], [pl]) /\
    Plugin.pluginPath pl = None.
Proof.
  repeat split. exists (frontend_plugin plg_neither). split; reflexivity.
Qed.

(** ** [init]: the backend branch *)

(** C3.  For a descriptor with a backend entry point that names a backend
    initializer [p], the loop body first prints its line and asks for the
    module at [p]; the Plugin is pushed to the backend array only after
    [doInitialization] has been called with (rpc, pluginManager, descriptor)
    and has returned, and when the module or its hook fails nothing is
    pushed and the exception leaves [init].  Hence in every run of [init]
    that returns, the call of the hook stands in the trace right before the
    push of that Plugin, which sits in the backend array at its place. *)
Theorem init_runs_initializer_before_push :
  forall (pid : string) (resolve : string -> Exn + Exports)
         (plg : PluginMetadata.t) (p : string),
    has_backend plg = true ->
    backendInitPath (PluginMetadata.lifecycle plg) = Some p ->
    p <> "" ->
    let pl := backend_plugin (Some p) plg in
    let steps := [ConsoleLog (initializing_line pid p); LoadModule (Some p);
                  CallDoInitialization p rpc pluginManager plg;
                  Push Result pl] in
    (forall r f,
        (initializer_succeeds resolve p plg /\
         init_body pid resolve plg (r, f) = (steps, inr (r ++ [pl], f)))
        \/ (exists t e,
              init_body pid resolve plg (r, f)
              = (ConsoleLog (initializing_line pid p) :: LoadModule (Some p) :: t, inl e) /\
              (t = [] \/ t = [CallDoInitialization p rpc pluginManager plg]))) /\
    (forall pre post t bk fr,
        init pid resolve (pre ++ plg :: post) = (t, inr (bk, fr)) ->
        exists t2,
          t = events (init pid resolve pre) ++ steps ++ t2 /\
          bk = backend_bucket pre ++ pl :: backend_bucket post).
Proof.
  intros pid resolve plg p Hb Hp Hne pl steps.
  assert (Hbody : forall r f,
    (initializer_succeeds resolve p plg /\
     init_body pid resolve plg (r, f) = (steps, inr (r ++ [pl], f)))
    \/ (exists t e,
          init_body pid resolve plg (r, f)
          = (ConsoleLog (initializing_line pid p) :: LoadModule (Some p) :: t, inl e) /\
          (t = [] \/ t = [CallDoInitialization p rpc pluginManager plg]))).
  { intros r f. rewrite (init_body_initializer pid resolve plg p r f Hb Hp Hne).
    destruct (initialize_cases pid resolve p plg Hne) as [[Hs ->] | (t & e & -> & Ht)].
    - left. split; [exact Hs | reflexivity].
    - right. exists t, e. split; [reflexivity | exact Ht]. }
  split; [exact Hbody |].
  intros pre post t bk fr H. unfold init in *.
  pose proof (init_loop_ok _ _ _ _ _ _ _ _ H) as [Hbk _]. cbn in Hbk.
  rewrite init_loop_app in H. apply eff_bind_ok in H.
  destruct H as (t1 & [r1 f1] & t2 & Hpre & Hrest & ->).
  cbn in Hrest. apply eff_bind_ok in Hrest.
  destruct Hrest as (tb & acc2 & t3 & Hb1 & _ & ->).
  rewrite Hpre. cbn [events fst].
  destruct (Hbody r1 f1) as [[_ Heq] | (t' & e & Heq & _)];
    rewrite Heq in Hb1; [| discriminate].
  inversion Hb1; subst tb acc2.
  exists t3. split; [reflexivity |].
  rewrite Hbk, backend_bucket_app, (backend_bucket_cons plg post).
  unfold backend_bucket at 2. cbn. rewrite Hb. cbn.
  unfold recorded_initPath, names_initializer. rewrite Hp. cbn.
  destruct (String.eqb_spec p ""); [contradiction | reflexivity].
Qed.

Lemma init_runs_initializer_before_push_witness :
  init_body sample_pid sample_resolve plg_c ([], [])
  = ([ConsoleLog (initializing_line sample_pid "c-init.js"); LoadModule (Some "c-init.js");
      CallDoInitialization "c-init.js" rpc pluginManager plg_c;
      Push Result (backend_plugin (Some "c-init.js") plg_c)],
     inr ([backend_plugin (Some "c-init.js") plg_c], [])) /\
  exists t2,
    events (init sample_pid sample_resolve [plg_a; plg_c; plg_b])
    = [Push Result (backend_plugin (Some "") plg_a)]
        ++ [ConsoleLog (initializing_line sample_pid "c-init.js");
            LoadModule (Some "c-init.js");
            CallDoInitialization "c-init.js" rpc pluginManager plg_c;
            Push Result (backend_plugin (Some "c-init.js") plg_c)]
        ++ t2.
Proof.
  assert (Hne : "c-init.js" <> "") by discriminate.
  destruct (init_runs_initializer_before_push sample_pid sample_resolve plg_c
              "c-init.js" eq_refl eq_refl Hne) as [Hbody Hinit].
  split.
  - destruct (Hbody [] []) as [[_ H] | (t & e & H & _)].
    + exact H.
    + discriminate H.
  - destruct (Hinit [plg_a] [plg_b] _ _ _ eq_refl) as (t2 & Ht & _).
    exists t2. exact Ht.
Defined.

(** C6.  The scenario: a descriptor with backend entry a.js and no
    initializer, one with only the frontend entry b.js, one with backend
    entry c.js and the initializer c-init.js, whose module loads and whose
    hook returns.  [init] returns the backend array [a, c] and the frontend
    array [b]; the hook of c-init.js is called right before c is pushed. *)
Theorem init_scenario :
  forall (pid : string) (resolve : string -> Exn + Exports)
         (da db dc : PluginMetadata.t),
    backend (entryPoint (PluginMetadata.model da)) = Some "a.js" ->
    backendInitPath (PluginMetadata.lifecycle da) = None ->
    backend (entryPoint (PluginMetadata.model db)) = None ->
    frontend (entryPoint (PluginMetadata.model db)) = Some "b.js" ->
    backend (entryPoint (PluginMetadata.model dc)) = Some "c.js" ->
    backendInitPath (PluginMetadata.lifecycle dc) = Some "c-init.js" ->
    initializer_succeeds resolve "c-init.js" dc ->
    let a := backend_plugin (Some "") da in
    let b := frontend_plugin db in
    let c := backend_plugin (Some "c-init.js") dc in
    init pid resolve [da; db; dc]
    = ([Push Result a; Push Foreign b;
        ConsoleLog (initializing_line pid "c-init.js"); LoadModule (Some "c-init.js");
        CallDoInitialization "c-init.js" rpc pluginManager dc;
        Push Result c],
       inr ([a; c], [b])) /\
    Plugin.pluginPath a = Some "a.js" /\
    Plugin.pluginPath b = Some "b.js" /\
    Plugin.pluginPath c = Some "c.js".
Proof.
  intros pid resolve da db dc Ha Hai Hb Hbf Hc Hci Hs a b c.
  assert (Hne : "c-init.js" <> "") by discriminate.
  split; [| subst a b c; cbn; auto].
  unfold init. cbn [init_loop].
  rewrite (init_body_no_initializer pid resolve da [] []);
    [| unfold has_backend; now rewrite Ha
     | unfold names_initializer; now rewrite Hai].
  cbn [bind Monad_Eff eff_bind app].
  rewrite (init_body_else pid resolve db _ _);
    [| unfold has_backend; now rewrite Hb].
  cbn [bind Monad_Eff eff_bind app].
  rewrite (init_body_initializer pid resolve dc "c-init.js" _ _);
    [| unfold has_backend; now rewrite Hc | exact Hci | exact Hne].
  rewrite (initialize_ok pid resolve "c-init.js" dc Hne Hs).
  reflexivity.
Qed.

Lemma init_scenario_witness :
  init sample_pid sample_resolve [plg_a; plg_b; plg_c]
  = ([Push Result (backend_plugin (Some "") plg_a);
      Push Foreign (frontend_plugin plg_b);
      ConsoleLog (initializing_line sample_pid "c-init.js"); LoadModule (Some "c-init.js");
      CallDoInitialization "c-init.js" rpc pluginManager plg_c;
      Push Result (backend_plugin (Some "c-init.js") plg_c)],
     inr ([backend_plugin (Some "") plg_a; backend_plugin (Some "c-init.js") plg_c],
          [frontend_plugin plg_b])).
Proof.
  refine (proj1 (init_scenario sample_pid sample_resolve plg_a plg_b plg_c
                   eq_refl eq_refl eq_refl eq_refl eq_refl eq_refl _)).
  exists initializer_module, (fun _ => None). repeat split.
Defined.

(** C7.  A descriptor with a backend entry point whose lifecycle names no
    backend initializer (the path is undefined or empty): after any prefix
    on which [init] returns, its step asks for no module, calls no hook,
    cannot throw, and pushes to the backend array a Plugin whose initPath is
    the empty string. *)
Theorem init_backend_without_initializer :
  forall (pid : string) (resolve : string -> Exn + Exports)
         (pre : list PluginMetadata.t) (plg : PluginMetadata.t) t1 bk1 fr1,
    has_backend plg = true ->
    names_initializer plg = false ->
    init pid resolve pre = (t1, inr (bk1, fr1)) ->
    let pl := backend_plugin (Some "") plg in
    init pid resolve (pre ++ [plg]) = (t1 ++ [Push Result pl], inr (bk1 ++ [pl], fr1)) /\
    Plugin.initPath pl = Some "" /\
    Plugin.pluginPath pl = backend (entryPoint (PluginMetadata.model plg)).
Proof.
  intros pid resolve pre plg t1 bk1 fr1 Hb Hn Hpre pl.
  split; [| split; reflexivity].
  unfold init in *. rewrite init_loop_app, Hpre. cbn [eff_bind].
  rewrite init_loop_single, (init_body_no_initializer pid resolve plg _ _ Hb Hn).
  reflexivity.
Qed.

Lemma init_backend_without_initializer_witness :
  init sample_pid sample_resolve ([plg_b] ++ [plg_a])
  = ([Push Foreign (frontend_plugin plg_b)] ++ [Push Result (backend_plugin (Some "") plg_a)],
     inr ([] ++ [backend_plugin (Some "") plg_a], [frontend_plugin plg_b])).
Proof.
  exact (proj1 (init_backend_without_initializer sample_pid sample_resolve
                  [plg_b] plg_a _ _ _ eq_refl eq_refl eq_refl)).
Defined.

(** ** [init]: the else branch *)

(** C8.  A descriptor whose model declares only a frontend entry point:
    after any prefix on which [init] returns, its step only pushes the
    Plugin, built from the frontend entry point and the frontend initializer
    path, to the frontend array; no module is loaded and no hook is called
    for it. *)
Theorem init_frontend_only_is_forwarded :
  forall (pid : string) (resolve : string -> Exn + Exports)
         (pre : list PluginMetadata.t) (plg : PluginMetadata.t) t1 bk1 fr1,
    has_backend plg = false ->
    has_frontend plg = true ->
    init pid resolve pre = (t1, inr (bk1, fr1)) ->
    let pl := frontend_plugin plg in
    init pid resolve (pre ++ [plg]) = (t1 ++ [Push Foreign pl], inr (bk1, fr1 ++ [pl])) /\
    Plugin.pluginPath pl = frontend (entryPoint (PluginMetadata.model plg)) /\
    Plugin.initPath pl = frontendInitPath (PluginMetadata.lifecycle plg).
Proof.
  intros pid resolve pre plg t1 bk1 fr1 Hb Hf Hpre pl.
  split; [| repeat split].
  unfold init in *. rewrite init_loop_app, Hpre. cbn [eff_bind].
  rewrite init_loop_single, (init_body_else pid resolve plg _ _ Hb).
  reflexivity.
Qed.

Lemma init_frontend_only_is_forwarded_witness :
  init sample_pid sample_resolve ([plg_a] ++ [plg_b])
  = ([Push Result (backend_plugin (Some "") plg_a)] ++ [Push Foreign (frontend_plugin plg_b)],
     inr ([backend_plugin (Some "") plg_a], [] ++ [frontend_plugin plg_b])).
Proof.
  exact (proj1 (init_frontend_only_is_forwarded sample_pid sample_resolve
                  [plg_a] plg_b _ _ _ eq_refl eq_refl eq_refl)).
Defined.

(** ** [loadPlugin] *)

Section LoadFacts.

Variable pid : string.
Variable resolve : string -> Exn + Exports.

(** [require] records the request, then returns or throws. *)
Lemma require_shape path :
  exists r, require resolve path = ([LoadModule path], r).
Proof.
  unfold require. cbn. destruct path as [p |]; cbn.
  - destruct (p =? ""); cbn; [now eexists |].
    destruct (resolve p); now eexists.
  - now eexists.
Qed.

Lemma require_empty : require resolve (Some "") = ([LoadModule (Some "")], inl missing_path).
Proof. reflexivity. Qed.

(** The [try] statement of [loadPlugin]. *)
Lemma try_main_module plugin :
  (exists exports,
      require resolve (Plugin.pluginPath plugin)
      = ([LoadModule (Plugin.pluginPath plugin)], inr exports) /\
      catch (exports <- require resolve (Plugin.pluginPath plugin) ;; ret (Some exports))
            (fun e => console_error e ;; ret None)
      = ([LoadModule (Plugin.pluginPath plugin)], inr (Some exports)))
  \/ (exists e,
        require resolve (Plugin.pluginPath plugin)
        = ([LoadModule (Plugin.pluginPath plugin)], inl e) /\
        catch (exports <- require resolve (Plugin.pluginPath plugin) ;; ret (Some exports))
              (fun e => console_error e ;; ret None)
        = ([LoadModule (Plugin.pluginPath plugin); ConsoleError e], inr None)).
Proof.
  destruct (require_shape (Plugin.pluginPath plugin)) as [[e | exports] Hr].
  - right. exists e. split; [exact Hr |]. now rewrite Hr.
  - left. exists exports. split; [exact Hr |]. now rewrite Hr.
Qed.

(** Every run of [loadPlugin]: either the statements before the [try]
    pass and the call returns, or one of them throws and so does the
    call, with nothing printed on the error stream. *)
Lemma loadPlugin_cases contextPath plugin :
  let head := [ConsoleLog (loadPlugin_line pid plugin); LoadModule (Some contextPath)] in
  (prelude_passes resolve contextPath plugin /\
   exists called,
     (called = [] \/ called = [CallDoLoad contextPath rpc plugin]) /\
     ((exists exports,
         require resolve (Plugin.pluginPath plugin)
         = ([LoadModule (Plugin.pluginPath plugin)], inr exports) /\
         loadPlugin pid resolve contextPath plugin
         = (head ++ called ++ [LoadModule (Plugin.pluginPath plugin)], inr (Some exports)))
      \/ (exists e,
            require resolve (Plugin.pluginPath plugin)
            = ([LoadModule (Plugin.pluginPath plugin)], inl e) /\
            loadPlugin pid resolve contextPath plugin
            = (head ++ called ++ [LoadModule (Plugin.pluginPath plugin); ConsoleError e],
               inr None))))
  \/ (~ prelude_passes resolve contextPath plugin /\
      exists called e,
        (called = [] \/ called = [CallDoLoad contextPath rpc plugin]) /\
        loadPlugin pid resolve contextPath plugin = (head ++ called, inl e)).
Proof.
  intros head. subst head. unfold loadPlugin, prelude_passes.
  pose proof (try_main_module plugin) as Hmain.
  remember (catch _ _) as main eqn:Hm in Hmain |- *. clear Hm.
  destruct (String.eqb_spec contextPath "") as [-> | Hne].
  { right. split; [intros [H _]; now apply H |].
    exists [], missing_path. split; [now left |]. now rewrite require_empty. }
  rewrite (require_nonempty resolve contextPath Hne).
  destruct (resolve contextPath) as [e | [| m]] eqn:Hr.
  { right. split; [intros (_ & m & H & _); discriminate |].
    exists [], e. split; [now left | reflexivity]. }
  { right. split; [intros (_ & m & H & _); discriminate |].
    exists [], not_an_object. split; [now left | reflexivity]. }
  cbn [call_doLoad bind Monad_Eff eff_bind console_log tell app].
  destruct (doLoad m) as [hook |] eqn:Hd.
  - destruct (hook plugin) as [e |] eqn:Hh.
    + right. split.
      * intros (_ & m' & Hm & [H | (hook' & H & Hh')]);
          inversion Hm; subst; congruence.
      * exists [CallDoLoad contextPath rpc plugin], e.
        split; [now right | reflexivity].
    + left. split.
      * split; [exact Hne |]. exists m. split; [reflexivity |].
        right. now exists hook.
      * exists [CallDoLoad contextPath rpc plugin]. split; [now right |].
        destruct Hmain as [(x & Hx & ->) | (e & He & ->)].
        -- left. exists x. split; [exact Hx | reflexivity].
        -- right. exists e. split; [exact He | reflexivity].
  - left. split.
    + split; [exact Hne |]. exists m. split; [reflexivity | now left].
    + exists []. split; [now left |].
      destruct Hmain as [(x & Hx & ->) | (e & He & ->)].
      * left. exists x. split; [exact Hx | reflexivity].
      * right. exists e. split; [exact He | reflexivity].
Qed.

End LoadFacts.

(** C2, as amended.  [loadPlugin] guards only [require(plugin.pluginPath)]
    with its [try].  When the statements before it pass, the call always
    returns; a throw from the main entry module's [require] is caught and
    printed with [console.error], the result is [undefined], and a following
    [loadPlugin] call runs with the outcome it has alone.  When the module at
    [contextPath] fails to load, is not an object, or its [doLoad] throws,
    the exception is not caught and not logged: [loadPlugin] throws it. *)
Theorem loadPlugin_guards_main_module_only :
  forall (pid : string) (resolve : string -> Exn + Exports)
         (contextPath : string) (plugin : Plugin.t),
    (prelude_passes resolve contextPath plugin ->
     (exists t v, loadPlugin pid resolve contextPath plugin = (t, inr v)) /\
     (forall e,
         require resolve (Plugin.pluginPath plugin)
         = ([LoadModule (Plugin.pluginPath plugin)], inl e) ->
         exists t,
           loadPlugin pid resolve contextPath plugin
           = (t ++ [LoadModule (Plugin.pluginPath plugin); ConsoleError e], inr None)) /\
     (forall contextPath' plugin',
         outcome (loadPlugin pid resolve contextPath plugin ;;
                  loadPlugin pid resolve contextPath' plugin')
         = outcome (loadPlugin pid resolve contextPath' plugin'))) /\
    (~ prelude_passes resolve contextPath plugin ->
     exists t e,
       loadPlugin pid resolve contextPath plugin = (t, inl e) /\
       existsb is_console_error t = false).
Proof.
  intros pid resolve contextPath plugin.
  destruct (loadPlugin_cases pid resolve contextPath plugin)
    as [[Hp (called & Hc & Hrun)] | [Hnp (called & e & Hc & Hrun)]].
  - split; [intros _ | intros Hnp; contradiction].
    assert (Hret : exists t v, loadPlugin pid resolve contextPath plugin = (t, inr v)).
    { destruct Hrun as [(x & _ & ->) | (e & _ & ->)]; now eexists _, _. }
    split; [exact Hret | split].
    + intros e He.
      destruct Hrun as [(x & Hx & _) | (e' & He' & ->)]; [congruence |].
      assert (e' = e) by congruence. subst e'.
      eexists. rewrite app_assoc. reflexivity.
    + intros contextPath' plugin'. destruct Hret as (t & v & ->).
      cbn [bind Monad_Eff eff_bind].
      now destruct (loadPlugin pid resolve contextPath' plugin').
  - split; [intros Hp; contradiction | intros _].
    exists ([ConsoleLog (loadPlugin_line pid plugin); LoadModule (Some contextPath)] ++ called), e.
    split; [exact Hrun |].
    destruct Hc as [-> | ->]; reflexivity.
Qed.

Lemma loadPlugin_guards_main_module_only_witness :
  (exists t,
      loadPlugin sample_pid sample_resolve "c-init.js" pl_missing
      = (t ++ [LoadModule (Some "missing.js"); ConsoleError cannot_find_module], inr None)) /\
  (exists t e,
      loadPlugin sample_pid sample_resolve "missing-init.js" pl_a = (t, inl e) /\
      existsb is_console_error t = false).
Proof.
  split.
  - assert (Hp : prelude_passes sample_resolve "c-init.js" pl_missing).
    { split; [discriminate |]. exists initializer_module.
      split; [reflexivity |]. right. now exists (fun _ => None). }
    destruct (loadPlugin_guards_main_module_only sample_pid sample_resolve
                "c-init.js" pl_missing) as [H _].
    destruct (H Hp) as (_ & Hcatch & _).
    exact (Hcatch cannot_find_module eq_refl).
  - assert (Hnp : ~ prelude_passes sample_resolve "missing-init.js" pl_a).
    { intros (_ & m & Hm & _). discriminate Hm. }
    destruct (loadPlugin_guards_main_module_only sample_pid sample_resolve
                "missing-init.js" pl_a) as [_ H].
    exact (H Hnp).
Defined.

(** C2 as written fails: when the initializer module cannot be loaded the
    exception leaves [loadPlugin]; nothing catches it and nothing is printed
    with [console.error]. *)
Lemma loadPlugin_throws_when_initializer_module_fails :
  loadPlugin sample_pid sample_resolve "missing-init.js" pl_a
  = ([ConsoleLog (loadPlugin_line sample_pid pl_a); LoadModule (Some "missing-init.js")],
     inl cannot_find_module).
Proof. reflexivity. Qed.

(** C5, as amended.  [loadPlugin] is declared [void].  Whenever it returns
    although the main entry module's [require] threw, the result is
    [undefined] and the exception has been printed with [console.error];
    whenever it throws, a statement before the [try] failed and nothing at
    all has been printed with [console.error], so that failure reaches the
    caller through the call itself. *)
Theorem loadPlugin_failure_reports :
  forall (pid : string) (resolve : string -> Exn + Exports)
         (contextPath : string) (plugin : Plugin.t) (t : Trace),
    (forall v e,
        loadPlugin pid resolve contextPath plugin = (t, inr v) ->
        require resolve (Plugin.pluginPath plugin)
        = ([LoadModule (Plugin.pluginPath plugin)], inl e) ->
        v = None /\ In (ConsoleError e) t) /\
    (forall e,
        loadPlugin pid resolve contextPath plugin = (t, inl e) ->
        ~ prelude_passes resolve contextPath plugin /\
        existsb is_console_error t = false).
Proof.
  intros pid resolve contextPath plugin t.
  destruct (loadPlugin_cases pid resolve contextPath plugin)
    as [[Hp (called & Hc & Hrun)] | [Hnp (called & e' & Hc & Hrun)]].
  - split.
    + intros v e Hv He.
      destruct Hrun as [(x & Hx & _) | (e1 & He1 & Hl)]; [congruence |].
      assert (e1 = e) by congruence. subst e1.
      rewrite Hl in Hv. inversion Hv; subst. split; [reflexivity |].
      right. right. apply in_or_app. right. right. now left.
    + intros e He. destruct Hrun as [(x & _ & Hl) | (e1 & _ & Hl)];
        rewrite Hl in He; discriminate.
  - split.
    + intros v e Hv _. rewrite Hrun in Hv. discriminate.
    + intros e He. rewrite Hrun in He. inversion He; subst.
      split; [exact Hnp |]. destruct Hc as [-> | ->]; reflexivity.
Qed.

Lemma loadPlugin_failure_reports_witness :
  (@None Exports = None /\
   In (ConsoleError cannot_find_module)
      [ConsoleLog (loadPlugin_line sample_pid pl_missing); LoadModule (Some "c-init.js");
       CallDoLoad "c-init.js" rpc pl_missing;
       LoadModule (Some "missing.js"); ConsoleError cannot_find_module]) /\
  (~ prelude_passes sample_resolve "bad-load.js" pl_a /\
   existsb is_console_error
     [ConsoleLog (loadPlugin_line sample_pid pl_a); LoadModule (Some "bad-load.js");
      CallDoLoad "bad-load.js" rpc pl_a] = false).
Proof.
  split.
  - exact (proj1 (loadPlugin_failure_reports sample_pid sample_resolve
                    "c-init.js" pl_missing _)
             None cannot_find_module eq_refl eq_refl).
  - exact (proj2 (loadPlugin_failure_reports sample_pid sample_resolve
                    "bad-load.js" pl_a _)
             (Error "doLoad failed") eq_refl).
Defined.

(** C5 as written fails: a [doLoad] hook that throws is reported by no log
    line; the exception is the outcome of the call. *)
Lemma loadPlugin_reports_doLoad_failure_to_caller :
  loadPlugin sample_pid sample_resolve "bad-load.js" pl_a
  = ([ConsoleLog (loadPlugin_line sample_pid pl_a); LoadModule (Some "bad-load.js");
      CallDoLoad "bad-load.js" rpc pl_a],
     inl (Error "doLoad failed")) /\
  existsb is_console_error
    (events (loadPlugin sample_pid sample_resolve "bad-load.js" pl_a)) = false.
Proof. split; reflexivity. Qed.

(** What line 58 hands back when the main entry module loads. *)
Example loadPlugin_returns_the_exports :
  outcome (loadPlugin sample_pid sample_resolve "c-init.js" pl_a)
  = inr (Some (Object plain_module)).
Proof. reflexivity. Qed.

(** C9.  Whatever the plugin and whatever the module exports, the first
    thing [loadPlugin] does after printing its line is [require(contextPath)];
    nothing tests the plugin's initPath.  Only the call of [doLoad] depends
    on a test: with the hook present it is called next, with (rpc, plugin);
    with the hook absent the main entry module is asked for next. *)
Theorem loadPlugin_requires_contextPath_first :
  forall (pid : string) (resolve : string -> Exn + Exports)
         (contextPath : string) (plugin : Plugin.t),
    exists t r,
      loadPlugin pid resolve contextPath plugin
      = (ConsoleLog (loadPlugin_line pid plugin) :: LoadModule (Some contextPath) :: t, r) /\
      (forall m,
          contextPath <> "" ->
          resolve contextPath = inr (Object m) ->
          (doLoad m = None ->
           exists t', t = LoadModule (Plugin.pluginPath plugin) :: t') /\
          (forall hook,
              doLoad m = Some hook ->
              exists t', t = CallDoLoad contextPath rpc plugin :: t')).
Proof.
  intros pid resolve contextPath plugin. unfold loadPlugin.
  assert (Hmain : exists t' r,
    catch (exports <- require resolve (Plugin.pluginPath plugin) ;; ret (Some exports))
          (fun e => console_error e ;; ret None)
    = (LoadModule (Plugin.pluginPath plugin) :: t', r)).
  { destruct (try_main_module resolve plugin) as [(x & _ & ->) | (e & _ & ->)];
      now eexists _, _. }
  remember (catch _ _) as main eqn:Hm in Hmain |- *. clear Hm.
  destruct Hmain as (t' & r' & ->).
  destruct (String.eqb_spec contextPath "") as [-> | Hne].
  { rewrite require_empty. eexists _, _. split; [reflexivity |].
    intros m H. now contradiction H. }
  rewrite (require_nonempty resolve contextPath Hne).
  destruct (resolve contextPath) as [e | [| m]] eqn:Hr.
  - eexists _, _. split; [reflexivity |]. intros m _ H. discriminate H.
  - eexists _, _. split; [reflexivity |]. intros m _ H. discriminate H.
  - cbn [call_doLoad bind Monad_Eff eff_bind console_log tell app].
    destruct (doLoad m) as [hook |] eqn:Hd.
    + destruct (hook plugin) as [e |] eqn:Hh.
      * eexists _, _. split; [reflexivity |].
        intros m' _ H. inversion H; subst m'. split.
        -- intros Hn. congruence.
        -- intros hook' _. now eexists.
      * eexists _, _. split; [reflexivity |].
        intros m' _ H. inversion H; subst m'. split.
        -- intros Hn. congruence.
        -- intros hook' _. now eexists.
    + eexists _, _. split; [reflexivity |].
      intros m' _ H. inversion H; subst m'. split.
      * intros _. now eexists.
      * intros hook Hn. congruence.
Qed.

Lemma loadPlugin_requires_contextPath_first_witness :
  exists t r,
    loadPlugin sample_pid sample_resolve "c-init.js" pl_a
    = (ConsoleLog (loadPlugin_line sample_pid pl_a) :: LoadModule (Some "c-init.js") :: t, r) /\
    exists t', t = CallDoLoad "c-init.js" rpc pl_a :: t'.
Proof.
  destruct (loadPlugin_requires_contextPath_first sample_pid sample_resolve
              "c-init.js" pl_a) as (t & r & Hrun & Hnext).
  exists t, r. split; [exact Hrun |].
  assert (Hne : "c-init.js" <> "") by discriminate.
  destruct (Hnext initializer_module Hne eq_refl) as [_ Hcall].
  exact (Hcall (fun _ => None) eq_refl).
Defined.

(** ** The inbound message handler *)

(** The handler returns on every message: nothing it runs can throw past
    its [catch]. *)
Lemma on_message_returns (JSON_parse : string -> Exn + JSON)
    (deliver : JSON -> Eff unit) (message : string) :
  exists t, on_message JSON_parse deliver message = (t, inr tt).
Proof.
  unfold on_message, emitter_fire. cbn.
  destruct (JSON_parse message) as [e | v]; cbn; [now eexists |].
  destruct (deliver v) as [t [e | []]]; cbn; now eexists.
Qed.

(** C4.  A message that [JSON.parse] rejects: the exception is caught and
    printed with [console.error], [emitter.fire] is never reached, so no
    subscriber sees the frame, and the handler returns, so the process goes
    on. *)
Theorem on_message_drops_malformed_frame :
  forall (JSON_parse : string -> Exn + JSON) (deliver : JSON -> Eff unit)
         (message : string) (e : Exn),
    JSON_parse message = inl e ->
    on_message JSON_parse deliver message = ([ConsoleError e], inr tt).
Proof.
  intros JSON_parse deliver message e He.
  unfold on_message. cbn. now rewrite He.
Qed.

Lemma on_message_drops_malformed_frame_witness :
  on_message sample_parse sample_deliver "{oops"
  = ([ConsoleError (SyntaxError "Unexpected token")], inr tt).
Proof.
  apply (on_message_drops_malformed_frame sample_parse sample_deliver "{oops").
  reflexivity.
Defined.








(** ** [init]: whole runs *)

Section InitRuns.

Variable pid : string.
Variable resolve : string -> Exn + Exports.

Lemma needs_initializer_path plg :
  needs_initializer plg = true ->
  has_backend plg = true /\
  backendInitPath (PluginMetadata.lifecycle plg) = Some (initializer_path plg) /\
  initializer_path plg <> "".
Proof.
  unfold needs_initializer. intros H. apply andb_prop in H. destruct H as [Hb Hn].
  destruct (names_initializer_path plg Hn) as (p & Hp & Hne).
  unfold initializer_path. rewrite Hp. auto.
Qed.

Lemma bucket_single plg :
  backend_bucket [plg]
  = (if has_backend plg then [backend_plugin (recorded_initPath plg) plg] else []) /\
  frontend_bucket [plg] = (if has_backend plg then [] else [frontend_plugin plg]).
Proof.
  unfold backend_bucket, frontend_bucket. cbn. now destruct (has_backend plg).
Qed.

(** A step that nothing stands in the way of. *)
Lemma init_body_step_ok plg r f :
  step_ok resolve plg ->
  init_body pid resolve plg (r, f)
  = (step_trace pid plg, inr (r ++ backend_bucket [plg], f ++ frontend_bucket [plg])).
Proof.
  intros Hok. destruct (bucket_single plg) as [-> ->].
  unfold step_trace, recorded_initPath.
  destruct (has_backend plg) eqn:Hb.
  - destruct (names_initializer plg) eqn:Hn.
    + assert (Hneed : needs_initializer plg = true)
        by (unfold needs_initializer; now rewrite Hb, Hn).
      destruct (needs_initializer_path plg Hneed) as (_ & Hp & Hne).
      rewrite (init_body_initializer pid resolve plg _ r f Hb Hp Hne).
      rewrite (initialize_ok pid resolve _ plg Hne (Hok Hneed)), Hp, app_nil_r.
      reflexivity.
    + rewrite (init_body_no_initializer pid resolve plg r f Hb Hn).
      now rewrite app_nil_r.
  - rewrite (init_body_else pid resolve plg r f Hb). now rewrite app_nil_r.
Qed.

(** A step whose initializer fails. *)
Lemma init_body_step_fail plg r f :
  ~ step_ok resolve plg ->
  exists t e,
    init_body pid resolve plg (r, f)
    = (ConsoleLog (initializing_line pid (initializer_path plg))
         :: LoadModule (Some (initializer_path plg)) :: t, inl e) /\
    (t = [] \/ t = [CallDoInitialization (initializer_path plg) rpc pluginManager plg]).
Proof.
  intros Hno.
  destruct (needs_initializer plg) eqn:Hneed;
    [| exfalso; apply Hno; unfold step_ok; rewrite Hneed; discriminate].
  destruct (needs_initializer_path plg Hneed) as (Hb & Hp & Hne).
  rewrite (init_body_initializer pid resolve plg _ r f Hb Hp Hne).
  destruct (initialize_cases pid resolve _ plg Hne) as [[Hs _] | (t & e & -> & Ht)].
  - exfalso. apply Hno. intros _. exact Hs.
  - exists t, e. split; [reflexivity | exact Ht].
Qed.

Lemma step_ok_or_not plg : step_ok resolve plg \/ ~ step_ok resolve plg.
Proof.
  destruct (needs_initializer plg) eqn:Hneed;
    [| left; unfold step_ok; rewrite Hneed; discriminate].
  destruct (needs_initializer_path plg Hneed) as (_ & _ & Hne).
  destruct (initialize_cases pid resolve _ plg Hne) as [[Hs _] | (t & e & Hth & _)].
  - left. intros _. exact Hs.
  - right. intros Hok.
    rewrite (initialize_ok pid resolve _ plg Hne (Hok Hneed)) in Hth. discriminate.
Qed.

(** The trace and the arrays of a run in which no step fails. *)
Lemma init_loop_run raw : forall r f,
  Forall (step_ok resolve) raw ->
  init_loop pid resolve raw (r, f)
  = (flat_map (step_trace pid) raw,
     inr (r ++ backend_bucket raw, f ++ frontend_bucket raw)).
Proof.
  induction raw as [| plg raw IH]; intros r f Hall.
  - cbn. now rewrite !app_nil_r.
  - inversion Hall as [| ? ? Hok Hrest]; subst.
    cbn [init_loop bind Monad_Eff]. rewrite (init_body_step_ok plg r f Hok).
    cbn [eff_bind]. rewrite (IH _ _ Hrest).
    rewrite (backend_bucket_cons plg raw), (frontend_bucket_cons plg raw).
    now rewrite !app_assoc.
Qed.

(** A run throws at the first step that fails. *)
Lemma init_loop_stops pre plg post r f :
  Forall (step_ok resolve) pre ->
  ~ step_ok resolve plg ->
  exists t e,
    init_loop pid resolve (pre ++ plg :: post) (r, f)
    = (flat_map (step_trace pid) pre
         ++ ConsoleLog (initializing_line pid (initializer_path plg))
         :: LoadModule (Some (initializer_path plg)) :: t, inl e) /\
    (t = [] \/ t = [CallDoInitialization (initializer_path plg) rpc pluginManager plg]).
Proof.
  intros Hpre Hno. rewrite init_loop_app, (init_loop_run pre r f Hpre).
  cbn [eff_bind init_loop bind Monad_Eff].
  destruct (init_body_step_fail plg (r ++ backend_bucket pre) (f ++ frontend_bucket pre) Hno)
    as (t & e & -> & Ht).
  exists t, e. split; [reflexivity | exact Ht].
Qed.

(** Every list of descriptors is all fine, or has a first failing step. *)
Lemma first_failing_step raw :
  Forall (step_ok resolve) raw \/
  exists pre plg post,
    raw = pre ++ plg :: post /\ Forall (step_ok resolve) pre /\ ~ step_ok resolve plg.
Proof.
  induction raw as [| plg raw IH]; [left; constructor |].
  destruct (step_ok_or_not plg) as [Hok | Hno].
  - destruct IH as [Hall | (pre & x & post & -> & Hpre & Hx)].
    + left. now constructor.
    + right. exists (plg :: pre), x, post. repeat split; [now constructor | exact Hx].
  - right. exists [], plg, raw. repeat split; [constructor | exact Hno].
Qed.

End InitRuns.

Lemma init_returns_all_ok pid resolve raw t bk fr :
  init pid resolve raw = (t, inr (bk, fr)) -> Forall (step_ok resolve) raw.
Proof.
  intros H.
  destruct (first_failing_step pid resolve raw)
    as [Hall | (pre & plg & post & -> & Hpre & Hno)]; [exact Hall |].
  destruct (init_loop_stops pid resolve pre plg post [] [] Hpre Hno) as (t' & e & Hs & _).
  unfold init in H. rewrite Hs in H. discriminate.
Qed.

Lemma step_trace_init_events pid plg :
  Forall (fun ev => init_event ev = true) (step_trace pid plg).
Proof.
  unfold step_trace.
  destruct (has_backend plg); [destruct (names_initializer plg) |];
    repeat constructor.
Qed.

Lemma initialized_app t1 t2 : initialized (t1 ++ t2) = initialized t1 ++ initialized t2.
Proof. unfold initialized. apply flat_map_app. Qed.

Lemma initialized_step pid plg :
  initialized (step_trace pid plg)
  = if needs_initializer plg then [(initializer_path plg, plg)] else [].
Proof.
  unfold step_trace, needs_initializer.
  destruct (has_backend plg); [destruct (names_initializer plg) |]; reflexivity.
Qed.

Lemma init_trace_of_run pid resolve raw t bk fr :
  init pid resolve raw = (t, inr (bk, fr)) -> t = flat_map (step_trace pid) raw.
Proof.
  intros H. pose proof (init_returns_all_ok _ _ _ _ _ _ H) as Hall.
  unfold init in H. rewrite (init_loop_run pid resolve raw [] [] Hall) in H.
  now inversion H.
Qed.

(** X1.  [init] returns exactly when every descriptor that has a backend
    entry point and names a backend initializer has an initializer module
    that loads, exports [doInitialization], and whose hook returns on the
    descriptor; in every other case [init] throws. *)
Theorem init_returns_iff_initializers_succeed :
  forall (pid : string) (resolve : string -> Exn + Exports)
         (raw : list PluginMetadata.t),
    (exists t bk fr, init pid resolve raw = (t, inr (bk, fr))) <->
    (forall plg, In plg raw -> needs_initializer plg = true ->
                 initializer_succeeds resolve (initializer_path plg) plg).
Proof.
  intros pid resolve raw. split.
  - intros (t & bk & fr & H) plg Hin.
    apply init_returns_all_ok in H. rewrite Forall_forall in H. exact (H plg Hin).
  - intros H. assert (Hall : Forall (step_ok resolve) raw)
      by (apply Forall_forall; intros plg Hin; exact (H plg Hin)).
    unfold init. rewrite (init_loop_run pid resolve raw [] [] Hall). now eexists _, _, _.
Qed.

Lemma init_returns_iff_initializers_succeed_witness :
  (exists t bk fr,
      init sample_pid sample_resolve [plg_a; plg_b] = (t, inr (bk, fr))) /\
  initializer_succeeds sample_resolve (initializer_path plg_c) plg_c.
Proof.
  split.
  - apply (proj2 (init_returns_iff_initializers_succeed sample_pid sample_resolve
                    [plg_a; plg_b])).
    intros plg [<- | [<- | []]] H; discriminate H.
  - refine (proj1 (init_returns_iff_initializers_succeed sample_pid sample_resolve
                     [plg_c]) _ plg_c (or_introl eq_refl) eq_refl).
    now eexists _, _, _.
Defined.

(** X2.  [init] stops at the first descriptor whose initializer fails: the
    steps before it have run in full, the failing step has printed its line
    and asked for the module (and called the hook, when it is the hook that
    throws), nothing is pushed for it, no later descriptor is looked at, and
    the exception is all the caller gets: the arrays filled so far are
    lost. *)
Theorem init_stops_at_first_failing_initializer :
  forall (pid : string) (resolve : string -> Exn + Exports)
         (pre : list PluginMetadata.t) (plg : PluginMetadata.t)
         (post : list PluginMetadata.t),
    Forall (step_ok resolve) pre ->
    needs_initializer plg = true ->
    ~ initializer_succeeds resolve (initializer_path plg) plg ->
    exists t e,
      init pid resolve (pre ++ plg :: post)
      = (flat_map (step_trace pid) pre
           ++ ConsoleLog (initializing_line pid (initializer_path plg))
           :: LoadModule (Some (initializer_path plg)) :: t, inl e) /\
      (t = [] \/ t = [CallDoInitialization (initializer_path plg) rpc pluginManager plg]).
Proof.
  intros pid resolve pre plg post Hpre Hneed Hfail.
  apply (init_loop_stops pid resolve pre plg post [] [] Hpre).
  intros Hok. exact (Hfail (Hok Hneed)).
Qed.

Lemma init_stops_at_first_failing_initializer_witness :
  exists t e,
    init sample_pid sample_resolve ([plg_a] ++ plg_broken :: [plg_b; plg_c])
    = (flat_map (step_trace sample_pid) [plg_a]
         ++ ConsoleLog (initializing_line sample_pid "missing-init.js")
         :: LoadModule (Some "missing-init.js") :: t, inl e) /\
    (t = [] \/
     t = [CallDoInitialization "missing-init.js" rpc pluginManager plg_broken]).
Proof.
  apply (init_stops_at_first_failing_initializer sample_pid sample_resolve
           [plg_a] plg_broken [plg_b; plg_c]).
  - constructor; [| constructor]. intros H; discriminate H.
  - reflexivity.
  - intros (m & hook & Hm & _). discriminate Hm.
Defined.

(** X3.  [init] on a list in two parts: when it returns on both parts, it
    returns on the whole with the traces and each of the two arrays put end
    to end; when it throws on the first part, it does the same on the whole,
    whatever follows. *)
Theorem init_on_two_batches :
  forall (pid : string) (resolve : string -> Exn + Exports)
         (xs ys : list PluginMetadata.t),
    (forall t1 b1 f1 t2 b2 f2,
        init pid resolve xs = (t1, inr (b1, f1)) ->
        init pid resolve ys = (t2, inr (b2, f2)) ->
        init pid resolve (xs ++ ys) = (t1 ++ t2, inr (b1 ++ b2, f1 ++ f2))) /\
    (forall t1 e,
        init pid resolve xs = (t1, inl e) ->
        init pid resolve (xs ++ ys) = (t1, inl e)).
Proof.
  intros pid resolve xs ys. split.
  - intros t1 b1 f1 t2 b2 f2 Hx Hy.
    pose proof (init_returns_all_ok _ _ _ _ _ _ Hx) as Hax.
    pose proof (init_returns_all_ok _ _ _ _ _ _ Hy) as Hay.
    unfold init in *.
    rewrite (init_loop_run pid resolve xs [] [] Hax) in Hx.
    rewrite (init_loop_run pid resolve ys [] [] Hay) in Hy.
    inversion Hx; inversion Hy; subst.
    rewrite (init_loop_run pid resolve (xs ++ ys) [] []) by (apply Forall_app; auto).
    now rewrite flat_map_app, backend_bucket_app, frontend_bucket_app.
  - intros t1 e Hx. unfold init in *. now rewrite init_loop_app, Hx.
Qed.

Lemma init_on_two_batches_witness :
  init sample_pid sample_resolve ([plg_a; plg_b] ++ [plg_c])
  = ([Push Result (backend_plugin (Some "") plg_a); Push Foreign (frontend_plugin plg_b)]
       ++ [ConsoleLog (initializing_line sample_pid "c-init.js");
           LoadModule (Some "c-init.js");
           CallDoInitialization "c-init.js" rpc pluginManager plg_c;
           Push Result (backend_plugin (Some "c-init.js") plg_c)],
     inr ([backend_plugin (Some "") plg_a] ++ [backend_plugin (Some "c-init.js") plg_c],
          [frontend_plugin plg_b] ++ [])) /\
  exists t e,
    init sample_pid sample_resolve ([plg_broken] ++ [plg_a]) = (t, inl e).
Proof.
  split.
  - exact (proj1 (init_on_two_batches sample_pid sample_resolve [plg_a; plg_b] [plg_c])
             _ _ _ _ _ _ eq_refl eq_refl).
  - eexists _, _.
    exact (proj2 (init_on_two_batches sample_pid sample_resolve [plg_broken] [plg_a])
             _ _ eq_refl).
Defined.

(** X4.  The trace of a run of [init] that returns is the steps of the
    descriptors, in their order: for a backend descriptor with an
    initializer the line, the request for the module, the call of the hook
    and the push; for any other descriptor the push alone. *)
Theorem init_trace_of_returning_run :
  forall (pid : string) (resolve : string -> Exn + Exports)
         (raw : list PluginMetadata.t) t bk fr,
    init pid resolve raw = (t, inr (bk, fr)) ->
    t = flat_map (step_trace pid) raw.
Proof.
  intros pid resolve raw t bk fr H.
  pose proof (init_returns_all_ok _ _ _ _ _ _ H) as Hall.
  unfold init in H. rewrite (init_loop_run pid resolve raw [] [] Hall) in H.
  now inversion H.
Qed.

Lemma init_trace_of_returning_run_witness :
  [Push Foreign (frontend_plugin plg_b);
   ConsoleLog (initializing_line sample_pid "c-init.js"); LoadModule (Some "c-init.js");
   CallDoInitialization "c-init.js" rpc pluginManager plg_c;
   Push Result (backend_plugin (Some "c-init.js") plg_c)]
  = flat_map (step_trace sample_pid) [plg_b; plg_c].
Proof.
  exact (init_trace_of_returning_run sample_pid sample_resolve [plg_b; plg_c]
           _ _ _ eq_refl).
Defined.

(** X5.  In a run of [init] that returns, [doInitialization] has been called
    once for each descriptor that has a backend entry point and names an
    initializer, in the order of the list and with that descriptor, and for
    no other descriptor. *)
Theorem init_calls_each_initializer_once :
  forall (pid : string) (resolve : string -> Exn + Exports)
         (raw : list PluginMetadata.t) t bk fr,
    init pid resolve raw = (t, inr (bk, fr)) ->
    initialized t
    = map (fun plg => (initializer_path plg, plg)) (filter needs_initializer raw).
Proof.
  intros pid resolve raw t bk fr H.
  pose proof (init_returns_all_ok _ _ _ _ _ _ H) as Hall.
  unfold init in H. rewrite (init_loop_run pid resolve raw [] [] Hall) in H.
  inversion H; subst. clear.
  induction raw as [| plg raw IH]; [reflexivity |].
  cbn [flat_map filter]. rewrite initialized_app, initialized_step, IH.
  now destruct (needs_initializer plg).
Qed.

Lemma init_calls_each_initializer_once_witness :
  initialized
    [Push Foreign (frontend_plugin plg_b);
     ConsoleLog (initializing_line sample_pid "c-init.js"); LoadModule (Some "c-init.js");
     CallDoInitialization "c-init.js" rpc pluginManager plg_c;
     Push Result (backend_plugin (Some "c-init.js") plg_c);
     Push Result (backend_plugin (Some "") plg_a)]
  = map (fun plg => (initializer_path plg, plg))
        (filter needs_initializer [plg_b; plg_c; plg_a]).
Proof.
  exact (init_calls_each_initializer_once sample_pid sample_resolve
           [plg_b; plg_c; plg_a] _ _ _ eq_refl).
Defined.

(** X6.  Whether it returns or throws, [init] only prints with
    [console.log], asks for modules, calls [doInitialization] and pushes: it
    never prints with [console.error], so a failing initializer leaves no
    error line, and it never calls [doLoad] or fires the emitter. *)
Theorem init_takes_only_init_actions :
  forall (pid : string) (resolve : string -> Exn + Exports)
         (raw : list PluginMetadata.t),
    Forall (fun ev => init_event ev = true) (events (init pid resolve raw)).
Proof.
  intros pid resolve raw.
  assert (Hsteps : forall l, Forall (fun ev => init_event ev = true)
                               (flat_map (step_trace pid) l)).
  { induction l as [| plg l IH]; [constructor |].
    cbn [flat_map]. apply Forall_app. split; [apply step_trace_init_events | exact IH]. }
  destruct (first_failing_step pid resolve raw)
    as [Hall | (pre & plg & post & -> & Hpre & Hno)].
  - unfold init. rewrite (init_loop_run pid resolve raw [] [] Hall). apply Hsteps.
  - destruct (init_loop_stops pid resolve pre plg post [] [] Hpre Hno)
      as (t & e & Hs & Ht).
    unfold init. rewrite Hs. cbn [events fst].
    apply Forall_app. split; [apply Hsteps |].
    destruct Ht as [-> | ->]; repeat constructor.
Qed.

(** X7.  In what [init] hands back, the initPath of every plugin of the
    backend array is a string, never [undefined]: either the empty string,
    or a path whose module [init] has asked for in this very run. *)
Theorem init_backend_initPath_was_required :
  forall (pid : string) (resolve : string -> Exn + Exports)
         (raw : list PluginMetadata.t) t bk fr,
    init pid resolve raw = (t, inr (bk, fr)) ->
    forall pl, In pl bk ->
      Plugin.initPath pl = Some "" \/
      exists p, Plugin.initPath pl = Some p /\ p <> "" /\ In (LoadModule (Some p)) t.
Proof.
  intros pid resolve raw t bk fr H pl Hin.
  rewrite (init_trace_of_run pid resolve raw t bk fr H).
  unfold init in H. apply init_loop_ok in H. cbn in H. destruct H as [-> _].
  unfold backend_bucket in Hin. apply in_map_iff in Hin.
  destruct Hin as (plg & <- & Hin). apply filter_In in Hin. destruct Hin as [Hraw Hb].
  cbn. unfold recorded_initPath.
  destruct (names_initializer plg) eqn:Hn; [right | now left].
  assert (Hneed : needs_initializer plg = true)
    by (unfold needs_initializer; now rewrite Hb, Hn).
  destruct (needs_initializer_path plg Hneed) as (_ & Hp & Hne).
  exists (initializer_path plg). split; [exact Hp | split; [exact Hne |]].
  apply in_flat_map. exists plg. split; [exact Hraw |].
  unfold step_trace. rewrite Hb, Hn. right. left. reflexivity.
Qed.

Lemma init_backend_initPath_was_required_witness :
  Plugin.initPath (backend_plugin (Some "c-init.js") plg_c) = Some "" \/
  exists p,
    Plugin.initPath (backend_plugin (Some "c-init.js") plg_c) = Some p /\ p <> "" /\
    In (LoadModule (Some p))
       [Push Result (backend_plugin (Some "") plg_a);
        ConsoleLog (initializing_line sample_pid "c-init.js");
        LoadModule (Some "c-init.js");
        CallDoInitialization "c-init.js" rpc pluginManager plg_c;
        Push Result (backend_plugin (Some "c-init.js") plg_c)].
Proof.
  refine (init_backend_initPath_was_required sample_pid sample_resolve
            [plg_a; plg_c] _ _ _ eq_refl _ _).
  right. left. reflexivity.
Defined.

(** ** [initialize] and [loadPlugin]: further runs *)

(** X8.  The two hooks are not treated alike.  [initialize] calls
    [doInitialization] without testing for it: on a module that loads but
    does not export the hook it throws a TypeError once the module is
    loaded.  [loadPlugin] tests for [doLoad]: with the same module as its
    context module and no [doLoad] it goes on and returns. *)
Theorem initialize_needs_its_hook :
  forall (pid : string) (resolve : string -> Exn + Exports)
         (p : string) (m : ModuleObject),
    p <> "" ->
    resolve p = inr (Object m) ->
    doInitialization m = None ->
    (forall plg,
        initialize pid resolve p plg
        = ([ConsoleLog (initializing_line pid p); LoadModule (Some p)],
           inl not_a_function)) /\
    (doLoad m = None ->
     forall plugin, exists t v, loadPlugin pid resolve p plugin = (t, inr v)).
Proof.
  intros pid resolve p m Hne Hr Hd. split.
  - intros plg. unfold initialize. cbn [bind Monad_Eff].
    rewrite (require_nonempty resolve p Hne), Hr. cbn. now rewrite Hd.
  - intros Hl plugin.
    assert (Hp : prelude_passes resolve p plugin).
    { split; [exact Hne |]. exists m. split; [exact Hr | now left]. }
    destruct (loadPlugin_cases pid resolve p plugin)
      as [[_ (called & _ & [(x & _ & ->) | (e & _ & ->)])] | [Hnp _]];
      [now eexists _, _ | now eexists _, _ | contradiction].
Qed.

Lemma initialize_needs_its_hook_witness :
  initialize sample_pid sample_resolve "a.js" plg_a
  = ([ConsoleLog (initializing_line sample_pid "a.js"); LoadModule (Some "a.js")],
     inl not_a_function) /\
  exists t v, loadPlugin sample_pid sample_resolve "a.js" pl_a = (t, inr v).
Proof.
  assert (Hne : "a.js" <> "") by discriminate.
  destruct (initialize_needs_its_hook sample_pid sample_resolve "a.js" plain_module
              Hne eq_refl eq_refl) as [Hi Hl].
  split; [exact (Hi plg_a) | exact (Hl eq_refl pl_a)].
Defined.

(** X9.  When the module at [contextPath] cannot be had (the path is empty,
    [require] throws, or the exports are [null]/[undefined]), [loadPlugin]
    throws right after asking for it: the plugin's main entry module is never
    asked for, [doLoad] is not called, and nothing is printed with
    [console.error]. *)
Theorem loadPlugin_stops_without_context_module :
  forall (pid : string) (resolve : string -> Exn + Exports)
         (contextPath : string) (plugin : Plugin.t),
    contextPath = "" \/ (exists e, resolve contextPath = inl e)
    \/ resolve contextPath = inr Nullish ->
    exists e,
      loadPlugin pid resolve contextPath plugin
      = ([ConsoleLog (loadPlugin_line pid plugin); LoadModule (Some contextPath)],
         inl e).
Proof.
  intros pid resolve contextPath plugin H. unfold loadPlugin.
  remember (catch _ _) as main eqn:Hm. clear Hm.
  destruct (String.eqb_spec contextPath "") as [-> | Hne].
  { rewrite require_empty. now eexists. }
  rewrite (require_nonempty resolve contextPath Hne).
  destruct H as [-> | [(e & ->) | ->]]; [contradiction | |]; now eexists.
Qed.

Lemma loadPlugin_stops_without_context_module_witness :
  exists e,
    loadPlugin sample_pid sample_resolve "" pl_a
    = ([ConsoleLog (loadPlugin_line sample_pid pl_a); LoadModule (Some "")], inl e).
Proof.
  apply (loadPlugin_stops_without_context_module sample_pid sample_resolve "" pl_a).
  left. reflexivity.
Defined.

(** X10.  What a call of [loadPlugin] that returns hands back.  The call
    has asked for two modules, the one at [contextPath] and then one more.
    When the [require] of that second module returned, the result is the
    very value it returned, the exports, whatever they are; when it threw,
    the exception has been printed with [console.error] and the result is
    the [undefined] of falling off the end. *)
Theorem loadPlugin_hands_back_what_require_gave :
  forall (pid : string) (resolve : string -> Exn + Exports)
         (contextPath : string) (plugin : Plugin.t) t v,
    loadPlugin pid resolve contextPath plugin = (t, inr v) ->
    exists path,
      requested t = [Some contextPath; path] /\
      ((exists x, require resolve path = ([LoadModule path], inr x) /\ v = Some x)
       \/ (exists e, require resolve path = ([LoadModule path], inl e) /\
                     v = None /\ In (ConsoleError e) t)).
Proof.
  intros pid resolve contextPath plugin t v H.
  exists (Plugin.pluginPath plugin).
  destruct (loadPlugin_cases pid resolve contextPath plugin)
    as [[_ (called & Hc & [(x & Hx & Hl) | (e & He & Hl)])] | [_ (called & e & _ & Hl)]];
    rewrite Hl in H; inversion H; subst; clear H.
  - split; [destruct Hc as [-> | ->]; reflexivity |].
    left. now exists x.
  - split; [destruct Hc as [-> | ->]; reflexivity |].
    right. exists e. repeat split; [exact He |].
    right. right. apply in_or_app. right. right. now left.
Qed.

Lemma loadPlugin_hands_back_what_require_gave_witness :
  exists path,
    requested [ConsoleLog (loadPlugin_line sample_pid pl_a); LoadModule (Some "c-init.js");
               CallDoLoad "c-init.js" rpc pl_a; LoadModule (Some "a.js")]
    = [Some "c-init.js"; path] /\
    ((exists x, require sample_resolve path = ([LoadModule path], inr x) /\
                Some (Object plain_module) = Some x)
     \/ (exists e, require sample_resolve path = ([LoadModule path], inl e) /\
                   Some (Object plain_module) = None /\
                   In (ConsoleError e)
                      [ConsoleLog (loadPlugin_line sample_pid pl_a);
                       LoadModule (Some "c-init.js");
                       CallDoLoad "c-init.js" rpc pl_a; LoadModule (Some "a.js")])).
Proof.
  exact (loadPlugin_hands_back_what_require_gave sample_pid sample_resolve
           "c-init.js" pl_a _ _ eq_refl).
Defined.

(** X11.  A plugin whose pluginPath is [undefined] or empty, as [init]
    builds for a descriptor without entry points: once the statements
    before the [try] have passed, [require] rejects the path, the exception
    is printed with [console.error] and the call returns [undefined]. *)
Theorem loadPlugin_without_pluginPath :
  forall (pid : string) (resolve : string -> Exn + Exports)
         (contextPath : string) (plugin : Plugin.t),
    prelude_passes resolve contextPath plugin ->
    truthy (Plugin.pluginPath plugin) = false ->
    exists t,
      loadPlugin pid resolve contextPath plugin
      = (t ++ [LoadModule (Plugin.pluginPath plugin); ConsoleError missing_path],
         inr None).
Proof.
  intros pid resolve contextPath plugin Hp Hf.
  assert (Hr : require resolve (Plugin.pluginPath plugin)
               = ([LoadModule (Plugin.pluginPath plugin)], inl missing_path)).
  { destruct (Plugin.pluginPath plugin) as [s |]; [| reflexivity].
    cbn in Hf. destruct (String.eqb_spec s ""); [subst; reflexivity | discriminate]. }
  destruct (loadPlugin_cases pid resolve contextPath plugin)
    as [[_ (called & _ & [(x & Hx & _) | (e & He & Hl)])] | [Hnp _]].
  - rewrite Hr in Hx. discriminate.
  - rewrite Hr in He. inversion He; subst e.
    eexists. rewrite Hl, app_assoc. reflexivity.
  - contradiction.
Qed.

Lemma loadPlugin_without_pluginPath_witness :
  exists t,
    loadPlugin sample_pid sample_resolve "c-init.js" pl_neither
    = (t ++ [LoadModule None; ConsoleError missing_path], inr None).
Proof.
  apply (loadPlugin_without_pluginPath sample_pid sample_resolve "c-init.js" pl_neither).
  - split; [discriminate |]. exists initializer_module.
    split; [reflexivity |]. right. now exists (fun _ => None).
  - reflexivity.
Defined.

(** X12.  How many modules [loadPlugin] asks for.  When the statements
    before the [try] pass: two, the one at [contextPath] and then one more,
    which is the pluginPath the plugin came in with whenever the context
    module exports no [doLoad], so that no hook has run in between.  When
    they do not pass: the one at [contextPath] alone. *)
Theorem loadPlugin_requested_modules :
  forall (pid : string) (resolve : string -> Exn + Exports)
         (contextPath : string) (plugin : Plugin.t),
    (prelude_passes resolve contextPath plugin ->
     exists second,
       requested (events (loadPlugin pid resolve contextPath plugin))
       = [Some contextPath; second] /\
       (forall m, resolve contextPath = inr (Object m) -> doLoad m = None ->
                  second = Plugin.pluginPath plugin)) /\
    (~ prelude_passes resolve contextPath plugin ->
     requested (events (loadPlugin pid resolve contextPath plugin))
     = [Some contextPath]).
Proof.
  intros pid resolve contextPath plugin.
  destruct (loadPlugin_cases pid resolve contextPath plugin)
    as [[Hp (called & Hc & Hrun)] | [Hnp (called & e & Hc & ->)]].
  - split; [intros _ | intros Hnp; contradiction].
    exists (Plugin.pluginPath plugin). split; [| reflexivity].
    destruct Hrun as [(x & _ & ->) | (e & _ & ->)];
      destruct Hc as [-> | ->]; reflexivity.
  - split; [intros Hp; contradiction | intros _].
    destruct Hc as [-> | ->]; reflexivity.
Qed.

Lemma loadPlugin_requested_modules_witness :
  (exists second,
      requested (events (loadPlugin sample_pid sample_resolve "a.js" pl_a))
      = [Some "a.js"; second] /\
      second = Plugin.pluginPath pl_a) /\
  requested (events (loadPlugin sample_pid sample_resolve "bad-load.js" pl_a))
  = [Some "bad-load.js"].
Proof.
  split.
  - assert (Hp : prelude_passes sample_resolve "a.js" pl_a).
    { split; [discriminate |]. exists plain_module. split; [reflexivity | now left]. }
    destruct (proj1 (loadPlugin_requested_modules sample_pid sample_resolve "a.js" pl_a) Hp)
      as (second & Hreq & Hsecond).
    exists second. split; [exact Hreq | exact (Hsecond plain_module eq_refl eq_refl)].
  - apply (proj2 (loadPlugin_requested_modules sample_pid sample_resolve "bad-load.js" pl_a)).
    intros (_ & m & Hm & [Hd | (hook & Hd & Hh)]).
    + inversion Hm; subst m. discriminate Hd.
    + inversion Hm; subst m. inversion Hd; subst hook. discriminate Hh.
Defined.

(** ** The inbound message handler: further runs *)

(** X13.  The handler never throws, whatever the message, the decoder and
    the subscribers do; and on a message that decodes to [v] and whose
    delivery returns, it adds nothing of its own: the frame is fired once
    and nothing is printed by the handler. *)
Theorem on_message_never_throws :
  forall (JSON_parse : string -> Exn + JSON) (deliver : JSON -> Eff unit)
         (message : string),
    (exists t, on_message JSON_parse deliver message = (t, inr tt)) /\
    (forall v t,
        JSON_parse message = inr v ->
        deliver v = (t, inr tt) ->
        on_message JSON_parse deliver message = (EmitterFire v :: t, inr tt)).
Proof.
  intros JSON_parse deliver message. split.
  - unfold on_message, emitter_fire. cbn.
    destruct (JSON_parse message) as [e | v]; cbn; [now eexists |].
    destruct (deliver v) as [t [e | []]]; cbn; now eexists.
  - intros v t Hv Hd. unfold on_message, emitter_fire. cbn.
    rewrite Hv. cbn. now rewrite Hd.
Qed.

Lemma on_message_never_throws_witness :
  on_message sample_parse quiet_deliver "{}" = (EmitterFire (JObject []) :: [], inr tt).
Proof.
  exact (proj2 (on_message_never_throws sample_parse quiet_deliver "{}")
           (JObject []) [] eq_refl eq_refl).
Defined.

Lemma fired_app t1 t2 : fired (t1 ++ t2) = fired t1 ++ fired t2.
Proof. unfold fired. apply flat_map_app. Qed.

Lemma on_messages_run (JSON_parse : string -> Exn + JSON)
    (deliver : JSON -> Eff unit) (messages : list string) :
  on_messages JSON_parse deliver messages
  = (flat_map (fun message => events (on_message JSON_parse deliver message)) messages,
     inr tt).
Proof.
  induction messages as [| message rest IH]; [reflexivity |].
  cbn [on_messages flat_map bind Monad_Eff].
  destruct (on_message_returns JSON_parse deliver message) as [t ->].
  cbn [eff_bind events fst]. now rewrite IH.
Qed.

(** X15.  With subscribers that do not fire the emitter themselves, the
    frames fired over a run of messages are the decoded values of the
    messages [JSON.parse] accepts, one each and in arrival order; the
    messages it rejects are skipped. *)
Theorem on_messages_fires_what_decodes :
  forall (JSON_parse : string -> Exn + JSON) (deliver : JSON -> Eff unit)
         (messages : list string),
    (forall v, fired (events (deliver v)) = []) ->
    fired (events (on_messages JSON_parse deliver messages))
    = flat_map (fun message => match JSON_parse message with
                               | inr v => [v]
                               | inl _ => []
                               end) messages.
Proof.
  intros JSON_parse deliver messages Hquiet.
  rewrite on_messages_run. cbn [events fst].
  induction messages as [| message rest IH]; [reflexivity |].
  cbn [flat_map]. rewrite fired_app, IH. f_equal.
  unfold on_message, emitter_fire. cbn -[fired].
  destruct (JSON_parse message) as [e | v]; cbn -[fired]; [reflexivity |].
  specialize (Hquiet v).
  destruct (deliver v) as [t [e | []]]; cbn -[fired] in *.
  - change (fired (EmitterFire v :: t ++ [ConsoleError e]))
      with (v :: fired (t ++ [ConsoleError e])).
    rewrite fired_app, Hquiet. reflexivity.
  - change (fired (EmitterFire v :: t)) with (v :: fired t).
    now rewrite Hquiet.
Qed.

Lemma on_messages_fires_what_decodes_witness :
  fired (events (on_messages sample_parse sample_deliver ["{}"; "{oops"; "{}"]))
  = flat_map (fun message => match sample_parse message with
                             | inr v => [v]
                             | inl _ => []
                             end) ["{}"; "{oops"; "{}"].
Proof.
  apply (on_messages_fires_what_decodes sample_parse sample_deliver ["{}"; "{oops"; "{}"]).
  intros v. reflexivity.
Defined.
